(** * The parameter-estimation tutorial notebook

    The repository holds one Jupyter notebook,
    [notebooks/parameter_estimation_injection_tutorial.ipynb].  Its code
    cells are a Python script that drives the external [bilby] library:
    it seeds numpy's random generator, builds a dictionary of injection
    parameters, a waveform generator, a two-detector network with
    simulated strain data, a prior, a likelihood, runs the [nestle]
    sampler and plots the posterior.

    This development embeds the notebook as follows.

    - The code cells are transcribed, statement by statement, into the
      abstract syntax of the Python fragment they use ([expr], [stmt],
      named after Python's [ast] module).
    - The notebook's own computation (name binding, [dict] construction,
      subscripting, arithmetic on literals, the [for] loop, item
      assignment) is given an executable semantics [exec_stmt].  A call
      into a library is not interpreted: it is answered by an oracle
      [ext] that threads the hidden state of the Python process (numpy's
      global generator, the objects the libraries own) and hands back an
      opaque handle.  Every call is recorded as an [event].
    - [np.quantile], whose three results the notebook combines into a
      credible interval, is numpy's; it is modelled over exact rationals
      after numpy's documented default (linear) method.

    Conventions of the model: names hold values, not references (no
    statement of the notebook binds a second name to a dictionary it
    later writes through, and an object handed to a library is handed
    over by value); an attribute or an item of a library object is kept
    symbolic, it never raises; and a float literal is read as the decimal
    it writes.  Where rounding matters, float64 is modelled by Rocq's
    primitive floats ([f64_quantile]). *)

From Stdlib Require Import ZArith QArith Qround Lqa List Bool Lia Sorted.
From Stdlib Require Import Floats Uint63.
From stdpp Require Import base decidable option list strings.
Import ListNotations.

Set Warnings "-register-all,-inexact-float".

Local Open Scope string_scope.
Local Open Scope list_scope.

(** ** Abstract syntax of the Python fragment *)

Inductive operator := Add | Sub | Mult | Div.

Inductive expr :=
| Name (id : string)
| IntLit (n : Z)
| FloatLit (x : Q)
| StrLit (s : string)
| BoolLit (b : bool)
| ListLit (elts : list expr)
| TupleLit (elts : list expr)
| Attribute (value : expr) (attr : string)
| Subscript (value : expr) (slice : expr)
| BinOp (left : expr) (op : operator) (right : expr)
| Call (func : expr) (args : list expr) (keywords : list (string * expr))
| Lambda (params : list string) (body : expr).

Inductive stmt :=
| Import (module : list string) (asname : option string)
| ImportFrom (module : list string) (names : list string)
| Magic (line : string)
| Assign (target : expr) (value : expr)
| Expr (value : expr)
| For (target : string) (iter : expr) (body : list stmt)
| While (test : expr) (body : list stmt)
| If (test : expr) (body : list stmt) (orelse : list stmt)
| Try (body : list stmt) (handlers : list stmt) (finalbody : list stmt)
| With (item : expr) (body : list stmt)
| Raise (exc : expr)
| FunctionDef (name : string) (params : list string) (body : list stmt)
| ClassDef (name : string) (body : list stmt).

Inductive cell :=
| Markdown
| Code (source : list stmt).

(** Dotted names: [dotted "bilby" ["gw"; "WaveformGenerator"]] is the
    expression [bilby.gw.WaveformGenerator]. *)
Fixpoint attrs (e : expr) (path : list string) : expr :=
  match path with
  | [] => e
  | a :: path' => attrs (Attribute e a) path'
  end.

Definition dotted (root : string) (path : list string) : expr :=
  attrs (Name root) path.

(** ** The notebook, cell by cell *)

Module Notebook.

(** Cell 2: only comments (the Colab [pip install] line is commented out). *)
Definition cell_install : list stmt := [].

(** Cell 5. *)
Definition cell_imports : list stmt :=
  [ ImportFrom ["__future__"] ["division"; "print_function"];
    Import ["numpy"] (Some "np");
    Import ["matplotlib"; "pyplot"] (Some "plt");
    Import ["bilby"] None;
    ImportFrom ["bilby"; "core"; "prior"] ["Uniform"];
    ImportFrom ["bilby"; "gw"; "conversion"]
      ["convert_to_lal_binary_black_hole_parameters";
       "generate_all_bbh_parameters"];
    Magic "matplotlib inline" ].

(** Cell 7. *)
Definition cell_version : list stmt :=
  [ Expr (Call (Name "print") [dotted "bilby" ["__version__"]] []) ].

(** Cell 10. *)
Definition cell_seed : list stmt :=
  [ Expr (Call (dotted "np" ["random"; "seed"]) [IntLit 1234] []) ].

(** Cell 12. *)
Definition injection_parameters_keywords : list (string * expr) :=
  [ ("mass_1", FloatLit 36); ("mass_2", FloatLit 29);
    ("a_1", FloatLit (4 # 10)); ("a_2", FloatLit (3 # 10));
    ("tilt_1", FloatLit (5 # 10)); ("tilt_2", FloatLit 1);
    ("phi_12", FloatLit (17 # 10)); ("phi_jl", FloatLit (3 # 10));
    ("luminosity_distance", FloatLit 2000);
    ("theta_jn", FloatLit (4 # 10)); ("psi", FloatLit (2659 # 1000));
    ("phase", FloatLit (13 # 10));
    ("geocent_time", FloatLit (1126259642413 # 1000));
    ("ra", FloatLit (1375 # 1000)); ("dec", FloatLit (-12108 # 10000)) ].

Definition cell_injection_parameters : list stmt :=
  [ Assign (Name "injection_parameters")
      (Call (Name "dict") [] injection_parameters_keywords) ].

(** Cell 14. *)
Definition cell_waveform_arguments : list stmt :=
  [ Assign (Name "waveform_arguments")
      (Call (Name "dict") []
         [ ("waveform_approximant", StrLit "IMRPhenomPv2");
           ("reference_frequency", FloatLit 50);
           ("minimum_frequency", FloatLit 20);
           ("catch_waveform_errors", BoolLit true) ]);
    Assign (Name "duration") (FloatLit 4);
    Assign (Name "sampling_frequency") (FloatLit 2048) ].

(** Cell 16. *)
Definition cell_waveform_generator : list stmt :=
  [ Assign (Name "waveform_generator")
      (Call (dotted "bilby" ["gw"; "WaveformGenerator"]) []
         [ ("duration", Name "duration");
           ("sampling_frequency", Name "sampling_frequency");
           ("frequency_domain_source_model",
            dotted "bilby" ["gw"; "source"; "lal_binary_black_hole"]);
           ("parameter_conversion",
            dotted "bilby"
              ["gw"; "conversion";
               "convert_to_lal_binary_black_hole_parameters"]);
           ("waveform_arguments", Name "waveform_arguments") ]) ].

(** Cell 18. *)
Definition cell_interferometers : list stmt :=
  [ Assign (Name "ifos")
      (Call (dotted "bilby" ["gw"; "detector"; "InterferometerList"])
         [ListLit [StrLit "H1"; StrLit "L1"]] []);
    Expr (Call (dotted "ifos"
                  ["set_strain_data_from_power_spectral_densities"]) []
            [ ("sampling_frequency", Name "sampling_frequency");
              ("duration", Name "duration");
              ("start_time",
               BinOp (Subscript (Name "injection_parameters")
                        (StrLit "geocent_time")) Sub (IntLit 3)) ]);
    Assign (Name "injection")
      (Call (dotted "ifos" ["inject_signal"]) []
         [ ("waveform_generator", Name "waveform_generator");
           ("parameters", Name "injection_parameters") ]) ].

(** Cell 20. *)
Definition cell_plot_data : list stmt :=
  let masked (e : expr) := Subscript e (Name "idxs") in
  [ Assign (Name "H1") (Subscript (Name "ifos") (IntLit 0));
    Assign (Name "H1_injection") (Subscript (Name "injection") (IntLit 0));
    Assign (TupleLit [Name "fig"; Name "ax"])
      (Call (dotted "plt" ["subplots"]) [] []);
    Assign (Name "idxs") (dotted "H1" ["strain_data"; "frequency_mask"]);
    Expr (Call (dotted "ax" ["loglog"])
            [ masked (dotted "H1" ["strain_data"; "frequency_array"]);
              Call (dotted "np" ["abs"])
                [masked (dotted "H1"
                           ["strain_data"; "frequency_domain_strain"])] [] ]
            [ ("label", StrLit "data") ]);
    Expr (Call (dotted "ax" ["loglog"])
            [ masked (dotted "H1" ["frequency_array"]);
              masked (dotted "H1" ["amplitude_spectral_density_array"]) ]
            [ ("label", StrLit "ASD") ]);
    Expr (Call (dotted "ax" ["loglog"])
            [ masked (dotted "H1" ["frequency_array"]);
              Call (dotted "np" ["abs"])
                [masked (Subscript (Name "H1_injection") (StrLit "plus"))]
                [] ]
            [ ("label", StrLit "Abs. val. of plus polarization") ]);
    Expr (Call (dotted "ax" ["set_xlabel"]) [StrLit "Frequency [Hz]"] []);
    Expr (Call (dotted "ax" ["set_ylabel"])
            [StrLit "Strain [strain/$\sqrt{Hz}$]"] []);
    Expr (Call (dotted "ax" ["legend"]) [] []);
    Expr (Call (dotted "plt" ["show"]) [] []) ].

(** Cell 23. *)
Definition fixed_keys : list string :=
  [ "a_1"; "a_2"; "tilt_1"; "tilt_2"; "phi_12"; "phi_jl"; "psi"; "ra";
    "dec"; "luminosity_distance"; "theta_jn"; "phase" ].

Definition cell_prior : list stmt :=
  let geocent_time :=
    Subscript (Name "injection_parameters") (StrLit "geocent_time") in
  [ Assign (Name "prior")
      (Call (dotted "bilby" ["core"; "prior"; "PriorDict"]) [] []);
    Assign (Subscript (Name "prior") (StrLit "chirp_mass"))
      (Call (Name "Uniform") []
         [ ("name", StrLit "chirp_mass"); ("minimum", FloatLit 30);
           ("maximum", FloatLit (325 # 10)) ]);
    Assign (Subscript (Name "prior") (StrLit "mass_ratio"))
      (Call (Name "Uniform") []
         [ ("name", StrLit "mass_ratio"); ("minimum", FloatLit (5 # 10));
           ("maximum", IntLit 1) ]);
    Assign (Subscript (Name "prior") (StrLit "geocent_time"))
      (Call (Name "Uniform") []
         [ ("minimum", BinOp geocent_time Sub (IntLit 1));
           ("maximum", BinOp geocent_time Add (IntLit 1));
           ("name", StrLit "geocent_time"); ("latex_label", StrLit "$t_c$");
           ("unit", StrLit "$s$") ]);
    For "key" (ListLit (map StrLit fixed_keys))
      [ Assign (Subscript (Name "prior") (Name "key"))
          (Subscript (Name "injection_parameters") (Name "key")) ] ].

(** Cell 24. *)
Definition cell_show_prior : list stmt := [ Expr (Name "prior") ].

(** Cell 26. *)
Definition cell_likelihood : list stmt :=
  [ Assign (Name "likelihood")
      (Call (dotted "bilby" ["gw"; "likelihood"; "GravitationalWaveTransient"])
         []
         [ ("interferometers", Name "ifos");
           ("waveform_generator", Name "waveform_generator");
           ("priors", Name "prior");
           ("time_marginalization", BoolLit true);
           ("phase_marginalization", BoolLit true);
           ("distance_marginalization", BoolLit false) ]) ].

(** Cell 30. *)
Definition cell_run_sampler : list stmt :=
  [ Assign (Name "result_short")
      (Call (dotted "bilby" ["run_sampler"])
         [ Name "likelihood"; Name "prior" ]
         [ ("sampler", StrLit "nestle"); ("outdir", StrLit "short");
           ("label", StrLit "GW150914");
           ("conversion_function",
            dotted "bilby" ["gw"; "conversion"; "generate_all_bbh_parameters"]);
           ("sample", StrLit "unif"); ("nlive", IntLit 500);
           ("dlogz", IntLit 3) ]) ].

(** Cells 33, 35, 37. *)
Definition chirp_mass_column : expr :=
  Subscript (dotted "result_short" ["posterior"]) (StrLit "chirp_mass").

Definition cell_posterior : list stmt :=
  [ Expr (dotted "result_short" ["posterior"]) ].

Definition cell_chirp_mass : list stmt := [ Expr chirp_mass_column ].

Definition cell_Mc : list stmt :=
  [ Assign (Name "Mc") (Attribute chirp_mass_column "values") ].

(** Cell 39. *)
Definition cell_credible_interval : list stmt :=
  [ Assign (Name "lower_bound")
      (Call (dotted "np" ["quantile"]) [Name "Mc"; FloatLit (5 # 100)] []);
    Assign (Name "upper_bound")
      (Call (dotted "np" ["quantile"]) [Name "Mc"; FloatLit (95 # 100)] []);
    Assign (Name "median")
      (Call (dotted "np" ["quantile"]) [Name "Mc"; FloatLit (5 # 10)] []);
    Expr (Call (Name "print")
            [ Call (Attribute (StrLit "Mc = {} with a 90% C.I = {} -> {}")
                      "format")
                [ Name "median"; Name "lower_bound"; Name "upper_bound" ]
                [] ] []) ].

(** Cell 41. *)
Definition cell_histogram : list stmt :=
  [ Assign (TupleLit [Name "fig"; Name "ax"])
      (Call (dotted "plt" ["subplots"]) [] []);
    Expr (Call (dotted "ax" ["hist"]) [chirp_mass_column]
            [ ("bins", IntLit 20) ]);
    Expr (Call (dotted "ax" ["axvspan"])
            [ Name "lower_bound"; Name "upper_bound" ]
            [ ("color", StrLit "C1"); ("alpha", FloatLit (4 # 10)) ]);
    Expr (Call (dotted "ax" ["axvline"]) [Name "median"]
            [ ("color", StrLit "C1") ]);
    Expr (Call (dotted "ax" ["set_xlabel"]) [StrLit "chirp mass"] []);
    Expr (Call (dotted "plt" ["show"]) [] []) ].

(** Cell 43. *)
Definition cell_corner : list stmt :=
  [ Expr (Call (dotted "result_short" ["plot_corner"]) []
            [ ("parameters",
               ListLit [ StrLit "chirp_mass"; StrLit "mass_ratio";
                         StrLit "geocent_time" ]);
              ("prior", BoolLit true) ]) ].

(** Cell 45. *)
Definition cell_corner_truths : list stmt :=
  [ Assign (Name "parameters")
      (Call (Name "dict") []
         [ ("mass_1", IntLit 36); ("mass_2", IntLit 29) ]);
    Expr (Call (dotted "result_short" ["plot_corner"])
            [Name "parameters"] []) ].

(** Cells 48, 50, 52. *)
Definition cell_priors : list stmt :=
  [ Expr (dotted "result_short" ["priors"]) ].

Definition cell_npoints : list stmt :=
  [ Expr (Subscript (dotted "result_short" ["sampler_kwargs"])
            (StrLit "npoints")) ].

Definition cell_bayes_factor : list stmt :=
  [ Expr (Call (Name "print")
            [ Call (Attribute (StrLit "ln Bayes factor = {} +/- {}") "format")
                [ dotted "result_short" ["log_bayes_factor"];
                  dotted "result_short" ["log_evidence_err"] ] [] ] []) ].

(** The 55 cells in file order; the text cells carry no code. *)
Definition cells : list cell :=
  [ Markdown; Markdown; Code cell_install; Markdown; Markdown;
    Code cell_imports; Markdown; Code cell_version; Markdown; Markdown;
    Code cell_seed; Markdown; Code cell_injection_parameters; Markdown;
    Code cell_waveform_arguments; Markdown; Code cell_waveform_generator;
    Markdown; Code cell_interferometers; Markdown; Code cell_plot_data;
    Markdown; Markdown; Code cell_prior; Code cell_show_prior; Markdown;
    Code cell_likelihood; Markdown; Markdown; Markdown;
    Code cell_run_sampler; Markdown; Markdown; Code cell_posterior;
    Markdown; Code cell_chirp_mass; Markdown; Code cell_Mc; Markdown;
    Code cell_credible_interval; Markdown; Code cell_histogram; Markdown;
    Code cell_corner; Markdown; Code cell_corner_truths; Markdown;
    Markdown; Code cell_priors; Markdown; Code cell_npoints; Markdown;
    Code cell_bayes_factor; Markdown; Code [] ].

End Notebook.

(** The script a top-to-bottom run of the notebook executes. *)
Definition cell_source (c : cell) : list stmt :=
  match c with
  | Markdown => []
  | Code source => source
  end.

Definition program (cs : list cell) : list stmt :=
  concat (map cell_source cs).

Definition notebook : list stmt := program Notebook.cells.

(** ** Values and call events *)

(** What a Python name can hold in this fragment.  [VDict cls items] is
    an instance of [dict] or of a [dict] subclass ([cls] is the class),
    with its items in insertion order.  [VRef path] is a module, a
    library symbol or a builtin, named by its dotted path.  [VHandle h]
    is the object an external call returned; [VAttr] and [VItem] are an
    attribute and an item of something the notebook does not own. *)
Inductive value :=
| VInt (n : Z)
| VFloat (x : Q)
| VStr (s : string)
| VBool (b : bool)
| VList (elts : list value)
| VTuple (elts : list value)
| VDict (cls : list string) (items : list (string * value))
| VRef (path : list string)
| VHandle (h : nat)
| VAttr (v : value) (attr : string)
| VItem (v : value) (idx : value).

Record event := Event {
  callee : value;
  args : list value;
  kwargs : list (string * value);
  result : value
}.

(** Library symbols the notebook calls, by dotted path. *)
Definition builtin_dict : list string := ["builtins"; "dict"].
Definition PriorDict : list string := ["bilby"; "core"; "prior"; "PriorDict"].
Definition Uniform : list string := ["bilby"; "core"; "prior"; "Uniform"].
Definition WaveformGenerator : list string :=
  ["bilby"; "gw"; "WaveformGenerator"].
Definition lal_binary_black_hole : list string :=
  ["bilby"; "gw"; "source"; "lal_binary_black_hole"].
Definition InterferometerList : list string :=
  ["bilby"; "gw"; "detector"; "InterferometerList"].
Definition GravitationalWaveTransient : list string :=
  ["bilby"; "gw"; "likelihood"; "GravitationalWaveTransient"].
Definition run_sampler : list string := ["bilby"; "run_sampler"].
Definition np_random_seed : list string := ["numpy"; "random"; "seed"].

(** Items of a dict, in insertion order; a namespace is such a mapping
    from names to values too. *)
Fixpoint get_item (items : list (string * value)) (key : string) : option value :=
  match items with
  | [] => None
  | (k, v) :: items' => if String.eqb k key then Some v else get_item items' key
  end.

Fixpoint set_item (items : list (string * value)) (key : string) (v : value)
  : list (string * value) :=
  match items with
  | [] => [(key, v)]
  | (k, v0) :: items' =>
      if String.eqb k key then (k, v) :: items'
      else (k, v0) :: set_item items' key v
  end.

(** The builtins the interpreter resolves when a name is not bound in
    the notebook's namespace. *)
Definition builtins : list string :=
  [ "print"; "dict"; "list"; "tuple"; "len"; "range"; "open"; "str";
    "int"; "float"; "abs"; "min"; "max"; "sum"; "sorted"; "zip";
    "enumerate"; "isinstance"; "exec"; "eval"; "input" ].

Definition lookup_name (ns : list (string * value)) (id : string) : option value :=
  match get_item ns id with
  | Some v => Some v
  | None => if bool_decide (id ∈ builtins) then Some (VRef ["builtins"; id])
            else None
  end.

Definition getattr (v : value) (attr : string) : value :=
  match v with
  | VRef path => VRef (path ++ [attr])
  | _ => VAttr v attr
  end.

Definition index (elts : list value) (i : Z) : option value :=
  let n := Z.of_nat (length elts) in
  if (0 <=? i)%Z then nth_error elts (Z.to_nat i)
  else if (- n <=? i)%Z then nth_error elts (Z.to_nat (n + i))
  else None.

(** [v[k]]: [None] is Python's KeyError, IndexError or TypeError. *)
Definition getitem (v k : value) : option value :=
  match v, k with
  | VDict _ items, VStr key => get_item items key
  | VDict _ _, _ => None
  | VList elts, VInt i | VTuple elts, VInt i => index elts i
  | VList _, _ | VTuple _, _ => None
  | VInt _, _ | VFloat _, _ | VBool _, _ | VStr _, _ => None
  | _, _ => Some (VItem v k)
  end.

Definition arith (op : operator) (x y : Q) : option Q :=
  match op with
  | Add => Some (x + y)%Q
  | Sub => Some (x - y)%Q
  | Mult => Some (x * y)%Q
  | Div => if Qeq_bool y 0 then None else Some (x / y)%Q
  end.

(** Arithmetic on numbers; the notebook imports [division] from
    [__future__], so [/] on two ints is true division. *)
Definition binop (op : operator) (l r : value) : option value :=
  match l, r with
  | VInt a, VInt b =>
      match op with
      | Add => Some (VInt (a + b))
      | Sub => Some (VInt (a - b))
      | Mult => Some (VInt (a * b))
      | Div => VFloat <$> arith Div (inject_Z a) (inject_Z b)
      end
  | VInt a, VFloat y => VFloat <$> arith op (inject_Z a) y
  | VFloat x, VInt b => VFloat <$> arith op x (inject_Z b)
  | VFloat x, VFloat y => VFloat <$> arith op x y
  | _, _ => None
  end.

(** ** Execution *)

Section Semantics.

(** [World] is the state of the Python process that the notebook cannot
    see: numpy's global random generator and the objects the libraries
    own.  [ext callee args kwargs w] is an external call: it returns the
    handle of its result and the new hidden state. *)
Context {World : Type}.
Variable ext : value → list value → list (string * value) → World → nat * World.

(** Computations read and write the hidden state, may raise, and log the
    calls they make. *)
Definition M (A : Type) : Type := World → option (A * World * list event).

Definition ret {A} (a : A) : M A := λ w, Some (a, w, []).

Definition raise {A} : M A := λ _, None.

Definition bind {A B} (m : M A) (f : A → M B) : M B :=
  λ w, match m w with
       | None => None
       | Some (a, w1, t1) =>
           match f a w1 with
           | None => None
           | Some (b, w2, t2) => Some (b, w2, t1 ++ t2)
           end
       end.

Definition lift {A} (o : option A) : M A :=
  match o with
  | Some a => ret a
  | None => raise
  end.

#[export] Instance M_ret : MRet M := @ret.
#[export] Instance M_bind : MBind M := λ A B f m, bind m f.

Definition log (e : event) : M unit := λ w, Some (tt, w, [e]).

(** A call.  [dict(k=v, ...)] and [PriorDict()] build a mapping the notebook
    then reads and writes itself, so they are interpreted; everything
    else is external. *)
Definition call (f : value) (vs : list value) (kws : list (string * value))
  : M value :=
  match f, vs with
  | VRef path, [] =>
      if bool_decide (path = builtin_dict) then
        _ ← log (Event f vs kws (VDict builtin_dict kws)) ;
        ret (VDict builtin_dict kws)
      else if bool_decide (path = PriorDict ∧ kws = []) then
        _ ← log (Event f vs kws (VDict PriorDict [])) ;
        ret (VDict PriorDict [])
      else
        λ w, let '(h, w') := ext f vs kws w in
             Some (VHandle h, w', [Event f vs kws (VHandle h)])
  | _, _ =>
      λ w, let '(h, w') := ext f vs kws w in
           Some (VHandle h, w', [Event f vs kws (VHandle h)])
  end.

(** Python evaluates the callee, then the positional arguments, then the
    keyword arguments, left to right. *)
Fixpoint eval (ns : list (string * value)) (e : expr) : M value :=
  let evals :=
    fix evals (es : list expr) : M (list value) :=
      match es with
      | [] => ret []
      | e :: es' => v ← eval ns e ; vs ← evals es' ; ret (v :: vs)
      end in
  match e with
  | Name id => lift (lookup_name ns id)
  | IntLit n => ret (VInt n)
  | FloatLit x => ret (VFloat x)
  | StrLit s => ret (VStr s)
  | BoolLit b => ret (VBool b)
  | ListLit elts => vs ← evals elts ; ret (VList vs)
  | TupleLit elts => vs ← evals elts ; ret (VTuple vs)
  | Attribute e1 attr => v ← eval ns e1 ; ret (getattr v attr)
  | Subscript e1 e2 =>
      v ← eval ns e1 ; k ← eval ns e2 ; lift (getitem v k)
  | BinOp e1 op e2 =>
      l ← eval ns e1 ; r ← eval ns e2 ; lift (binop op l r)
  | Call func es kws =>
      f ← eval ns func ;
      vs ← evals es ;
      kvs ← (fix evalkw (kws : list (string * expr)) : M (list (string * value)) :=
               match kws with
               | [] => ret []
               | (k, e) :: kws' =>
                   v ← eval ns e ; kvs ← evalkw kws' ; ret ((k, v) :: kvs)
               end) kws ;
      call f vs kvs
  | Lambda _ _ => raise
  end.

(** Binding the targets of an unpacking assignment, left to right. *)
Fixpoint bind_names (ns : list (string * value)) (targets : list expr)
    (vs : list value) : option (list (string * value)) :=
  match targets, vs with
  | [], [] => Some ns
  | Name x :: targets', v :: vs' => bind_names (set_item ns x v) targets' vs'
  | _, _ => None
  end.

(** Unpacking [v] into [n] targets.  A library object is iterated by the
    library: its components stay symbolic. *)
Definition unpack (n : nat) (v : value) : option (list value) :=
  match v with
  | VList elts | VTuple elts =>
      if decide (length elts = n) then Some elts else None
  | VHandle _ | VAttr _ _ | VItem _ _ =>
      Some (map (λ i, VItem v (VInt (Z.of_nat i))) (seq 0 n))
  | _ => None
  end.

(** [target = v].  Item assignment [x[k] = v] updates the mapping bound
    to [x] in place. *)
Definition assign (ns : list (string * value)) (target : expr) (v : value)
  : M (list (string * value)) :=
  match target with
  | Name x => mret (set_item ns x v)
  | TupleLit targets | ListLit targets =>
      vs ← lift (unpack (length targets) v);
      lift (bind_names ns targets vs)
  | Subscript (Name x) e =>
      obj ← lift (get_item ns x);
      k ← eval ns e;
      match obj, k with
      | VDict cls items, VStr key =>
          mret (set_item ns x (VDict cls (set_item items key v)))
      | _, _ => raise
      end
  | _ => raise
  end.

Definition import_from (path : list string) (ns : list (string * value))
    (name : string) : list (string * value) :=
  set_item ns name (VRef (path ++ [name])).

(** One statement.  The compound statements other than [for], and
    [raise] and the definitions, are outside the executed fragment. *)
Fixpoint exec_stmt (s : stmt) (ns : list (string * value)) : M (list (string * value)) :=
  match s with
  | Import path (Some name) => mret (set_item ns name (VRef path))
  | Import (top :: _) None => mret (set_item ns top (VRef [top]))
  | Import [] None => raise
  | ImportFrom path names => mret (foldl (import_from path) ns names)
  | Magic _ => mret ns
  | Assign target e => v ← eval ns e; assign ns target v
  | Expr e => _ ← eval ns e; mret ns
  | For x iter body =>
      it ← eval ns iter;
      match it with
      | VList vs | VTuple vs =>
          (fix loop (vs : list value) (ns : list (string * value)) :=
             match vs with
             | [] => mret ns
             | v :: vs' =>
                 ns' ← (fix block (ss : list stmt) (ns : list (string * value)) :=
                          match ss with
                          | [] => mret ns
                          | s :: ss' => ns' ← exec_stmt s ns; block ss' ns'
                          end) body (set_item ns x v);
                 loop vs' ns'
             end) vs ns
      | _ => raise
      end
  | While _ _ | If _ _ _ | Try _ _ _ | With _ _ | Raise _
  | FunctionDef _ _ _ | ClassDef _ _ => raise
  end.

Fixpoint exec_block (ss : list stmt) (ns : list (string * value))
  : M (list (string * value)) :=
  match ss with
  | [] => mret ns
  | s :: ss' => ns' ← exec_stmt s ns; exec_block ss' ns'
  end.

(** The loops inside [eval] and [exec_stmt], by name. *)
Definition evals (ns : list (string * value)) : list expr → M (list value) :=
  fix evals (es : list expr) : M (list value) :=
    match es with
    | [] => mret []
    | e :: es' => v ← eval ns e; vs ← evals es'; mret (v :: vs)
    end.

Definition for_loop (x : string) (body : list stmt)
  : list value → list (string * value) → M (list (string * value)) :=
  fix loop (vs : list value) (ns : list (string * value)) :=
    match vs with
    | [] => mret ns
    | v :: vs' => ns' ← exec_block body (set_item ns x v); loop vs' ns'
    end.

(** A run from an empty namespace. *)
Definition run (ss : list stmt) : M (list (string * value)) := exec_block ss [].

End Semantics.

(** ** The uninterpreted library

    Every external call returns a fresh object: the hidden state counts
    the calls made so far and the handle is that count. *)
Definition fresh (f : value) (vs : list value) (kws : list (string * value))
    (n : nat) : nat * nat :=
  (n, S n).

Definition outcome : option (list (string * value) * nat * list event) :=
  run fresh notebook 0.

Definition trace : list event :=
  match outcome with
  | Some (_, _, t) => t
  | None => []
  end.


(** ** Static analyses of the script *)

(** Every subexpression of an expression, the expression first. *)
Fixpoint subexprs (e : expr) : list expr :=
  e ::
  match e with
  | Name _ | IntLit _ | FloatLit _ | StrLit _ | BoolLit _ => []
  | ListLit elts | TupleLit elts => flat_map subexprs elts
  | Attribute e1 _ => subexprs e1
  | Subscript e1 e2 | BinOp e1 _ e2 => subexprs e1 ++ subexprs e2
  | Call func es kws =>
      subexprs func ++ flat_map subexprs es
      ++ flat_map (λ '(_, e1), subexprs e1) kws
  | Lambda _ body => subexprs body
  end.

(** Every statement of a block, nested ones included, in source order. *)
Fixpoint substmts (s : stmt) : list stmt :=
  s ::
  match s with
  | Import _ _ | ImportFrom _ _ | Magic _ | Assign _ _ | Expr _ | Raise _ => []
  | For _ _ body | While _ body | With _ body | FunctionDef _ _ body
  | ClassDef _ body => flat_map substmts body
  | If _ body orelse => flat_map substmts body ++ flat_map substmts orelse
  | Try body handlers finalbody =>
      flat_map substmts body ++ flat_map substmts handlers
      ++ flat_map substmts finalbody
  end.

Definition all_stmts (ss : list stmt) : list stmt := flat_map substmts ss.

(** The expressions a statement holds directly. *)
Definition stmt_exprs (s : stmt) : list expr :=
  match s with
  | Assign target e => [target; e]
  | Expr e | Raise e => [e]
  | For _ e _ | While e _ | If e _ _ | With e _ => [e]
  | _ => []
  end.

Definition all_exprs (ss : list stmt) : list expr :=
  flat_map subexprs (flat_map stmt_exprs (all_stmts ss)).

Inductive kind :=
| KImport | KMagic | KAssign | KExpr | KFor | KWhile | KIf | KTry | KWith
| KRaise | KFunctionDef | KClassDef.

#[export] Instance kind_eq_dec : EqDecision kind.
Proof. solve_decision. Defined.

Definition kind_of (s : stmt) : kind :=
  match s with
  | Import _ _ | ImportFrom _ _ => KImport
  | Magic _ => KMagic
  | Assign _ _ => KAssign
  | Expr _ => KExpr
  | For _ _ _ => KFor
  | While _ _ => KWhile
  | If _ _ _ => KIf
  | Try _ _ _ => KTry
  | With _ _ => KWith
  | Raise _ => KRaise
  | FunctionDef _ _ _ => KFunctionDef
  | ClassDef _ _ => KClassDef
  end.

Definition kinds (ss : list stmt) : list kind := map kind_of (all_stmts ss).

(** Names the script defines as functions or classes, and its lambdas. *)
Definition defined_name (s : stmt) : option string :=
  match s with
  | FunctionDef name _ _ | ClassDef name _ => Some name
  | _ => None
  end.

Definition local_definitions (ss : list stmt) : list string :=
  omap defined_name (all_stmts ss).

Definition is_lambda (e : expr) : bool :=
  match e with Lambda _ _ => true | _ => false end.

Definition lambdas (ss : list stmt) : list expr :=
  filter (λ e, is_lambda e) (all_exprs ss).

(** Top-level packages the script imports. *)
Definition imported_package (s : stmt) : option string :=
  match s with
  | Import (top :: _) _ | ImportFrom (top :: _) _ => Some top
  | _ => None
  end.

Definition imported_packages (ss : list stmt) : list string :=
  remove_dups (omap imported_package (all_stmts ss)).

(** The keyword arguments written anywhere in the script. *)
Definition expr_keywords (e : expr) : list (string * expr) :=
  match e with
  | Call _ _ kws => kws
  | _ => []
  end.

Definition all_keywords (ss : list stmt) : list (string * expr) :=
  flat_map expr_keywords (all_exprs ss).

Definition contains (sub s : string) : bool :=
  bool_decide (is_Some (String.index 0 sub s)).

(** The identifiers the script mentions: names and attribute names. *)
Definition identifier (e : expr) : option string :=
  match e with
  | Name id => Some id
  | Attribute _ attr => Some attr
  | _ => None
  end.

Definition identifiers (ss : list stmt) : list string :=
  omap identifier (all_exprs ss).

(** ** Analyses of the call trace *)

Definition is_ref (path : list string) (v : value) : bool :=
  match v with
  | VRef p => bool_decide (p = path)
  | _ => false
  end.

(** [method_of v] is [Some (receiver, name)] when [v] is the bound method
    [receiver.name]. *)
Definition method_of (v : value) : option (value * string) :=
  match v with
  | VAttr receiver name => Some (receiver, name)
  | _ => None
  end.

Definition calls (path : list string) (e : event) : bool :=
  is_ref path (callee e).

Definition calls_method (name : string) (e : event) : bool :=
  match method_of (callee e) with
  | Some (_, m) => bool_decide (m = name)
  | None => false
  end.

(** The last component of what is called: [run_sampler], [hist], ... *)
Definition callee_name (e : event) : option string :=
  match callee e with
  | VRef path => last path
  | VAttr _ name => Some name
  | _ => None
  end.

(** The handles that occur in a value. *)
Fixpoint handles (v : value) : list nat :=
  match v with
  | VInt _ | VFloat _ | VStr _ | VBool _ | VRef _ => []
  | VList elts | VTuple elts => flat_map handles elts
  | VDict _ items => flat_map (λ '(_, v1), handles v1) items
  | VHandle h => [h]
  | VAttr v1 _ => handles v1
  | VItem v1 v2 => handles v1 ++ handles v2
  end.

Definition inputs (e : event) : list nat :=
  handles (callee e) ++ flat_map handles (args e)
  ++ flat_map (λ '(_, v), handles v) (kwargs e).

(** Every object a call consumes was returned by an earlier call. *)
Fixpoint causal_from (known : list nat) (t : list event) : bool :=
  match t with
  | [] => true
  | e :: t' =>
      forallb (λ h, bool_decide (h ∈ known)) (inputs e)
      && causal_from (known ++ handles (result e)) t'
  end.

Definition causal (t : list event) : bool := causal_from [] t.

(** Data flow: the handles computed from the handles in [from], following
    the trace forwards. *)
Fixpoint derived (from : list nat) (t : list event) : list nat :=
  match t with
  | [] => from
  | e :: t' =>
      if bool_decide (Exists (λ h, h ∈ from) (inputs e))
      then derived (from ++ handles (result e)) t'
      else derived from t'
  end.

(** A callee is the library's when it is a library symbol, a builtin, or
    a method or component of an object a library returned (or of a
    [str]); nothing the script defined itself. *)
Fixpoint library_owned (v : value) : bool :=
  match v with
  | VRef (root :: _) =>
      bool_decide (root ∈ ["builtins"; "numpy"; "matplotlib"; "bilby"])
  | VHandle _ | VStr _ => true
  | VAttr v1 _ | VItem v1 _ => library_owned v1
  | _ => false
  end.

(** ** The stages of the inference workflow *)

Inductive step :=
| Network | StrainData | Injection | Prior | Likelihood | Sampler
| Visualisation.

Definition plotting_methods : list string :=
  [ "plot"; "loglog"; "semilogx"; "semilogy"; "scatter"; "hist"; "axvspan";
    "axvline"; "axhline"; "plot_corner" ].

(** What was computed from the sampler's result. *)
Definition sampler_outputs (t : list event) : list nat :=
  derived (flat_map (λ e, handles (result e)) (filter (calls run_sampler) t)) t.

(** A plotting call visualises results when one of its inputs was
    computed from the sampler's result. *)
Definition visualises_results (t : list event) (e : event) : bool :=
  match callee_name e with
  | Some m => bool_decide (m ∈ plotting_methods)
  | None => false
  end
  && bool_decide (Exists (λ h, h ∈ sampler_outputs t) (inputs e)).

Definition step_of (t : list event) (e : event) : option step :=
  if calls InterferometerList e then Some Network
  else if calls_method "set_strain_data_from_power_spectral_densities" e
  then Some StrainData
  else if calls_method "inject_signal" e then Some Injection
  else if calls PriorDict e then Some Prior
  else if calls GravitationalWaveTransient e then Some Likelihood
  else if calls run_sampler e then Some Sampler
  else if visualises_results t e then Some Visualisation
  else None.

Definition workflow (t : list event) : list step := omap (step_of t) t.

Definition receiver (e : event) : option value := fst <$> method_of (callee e).

(** ** Cell-level views of the run *)

(** The script of the first [n] cells, and of the cells [m, n). *)
Definition upto (n : nat) : list stmt := program (take n Notebook.cells).

Definition between (m n : nat) : list stmt :=
  program (drop m (take n Notebook.cells)).

(** What a name holds, and the calls made, once the first [n] cells
    have run. *)
Definition lookup_after (n : nat) (x : string) : option value :=
  match run fresh (upto n) 0 with
  | Some (ns, _, _) => get_item ns x
  | None => None
  end.

Definition trace_after (n : nat) : list event :=
  match run fresh (upto n) 0 with
  | Some (_, _, t) => t
  | None => []
  end.

Definition named (name : string) (e : event) : bool :=
  match get_item (kwargs e) "name" with
  | Some (VStr s) => String.eqb s name
  | _ => false
  end.

Definition is_number (v : value) : bool :=
  match v with
  | VInt _ | VFloat _ => true
  | _ => false
  end.

(** The entries of a prior that are distributions to sample from, not
    numbers the analysis holds fixed. *)
Definition sampled (items : list (string * value)) : list (string * value) :=
  filter (λ '(_, v), negb (is_number v)) items.

(** Literals and their values. *)
Definition literal_value (e : expr) : option value :=
  match e with
  | IntLit n => Some (VInt n)
  | FloatLit x => Some (VFloat x)
  | StrLit s => Some (VStr s)
  | BoolLit b => Some (VBool b)
  | _ => None
  end.

Definition literal (e : expr) : bool := bool_decide (is_Some (literal_value e)).

Definition literal_items (kws : list (string * expr)) : list (string * value) :=
  omap (λ '(k, e), pair k <$> literal_value e) kws.

(** ** Straight-line form *)

(** A [for] over a list of literals is the sequence of its iterations. *)
Definition unroll_stmt (s : stmt) : list stmt :=
  match s with
  | For x (ListLit elts) body =>
      if forallb literal elts
      then flat_map (λ e, Assign (Name x) e :: body) elts
      else [s]
  | _ => [s]
  end.

Definition unroll (ss : list stmt) : list stmt := flat_map unroll_stmt ss.

Definition simple (s : stmt) : bool :=
  match s with
  | Import _ _ | ImportFrom _ _ | Magic _ | Assign _ _ | Expr _ => true
  | _ => false
  end.

Definition straight_line (ss : list stmt) : bool := forallb simple ss.

(** Packages of Python's standard library for threads, processes and
    asynchronous tasks, and the names of their coordination objects. *)
Definition concurrency_packages : list string :=
  [ "threading"; "multiprocessing"; "asyncio"; "concurrent"; "subprocess";
    "queue"; "sched"; "signal"; "_thread" ].

Definition coordination_names : list string :=
  [ "Thread"; "Process"; "Pool"; "Lock"; "RLock"; "Semaphore"; "Event";
    "Condition"; "Barrier"; "Queue"; "ThreadPoolExecutor";
    "ProcessPoolExecutor"; "Popen" ].

(** ** Writing files *)

(** Names under which Python, numpy, matplotlib and pandas write a file
    or create a directory: the file interfaces a script would call to
    persist data itself. *)
Definition file_interfaces : list string :=
  [ "open"; "write"; "writelines"; "save"; "savez"; "savetxt"; "tofile";
    "savefig"; "dump"; "to_csv"; "to_json"; "to_hdf"; "to_pickle";
    "mkdir"; "makedirs" ].

(** Routines of bilby that write files as part of their work:
    [run_sampler] saves the result under [outdir] and [label], the
    explicit saving methods of a result, and the plotting methods of a
    result, which save the figure they draw unless told otherwise. *)
Definition library_writers : list string :=
  [ "run_sampler"; "save_to_file"; "save_posterior_samples"; "plot_corner";
    "plot_marginals"; "plot_walkers"; "plot_with_data" ].

Definition writers : list string := file_interfaces ++ library_writers.

(** Keyword arguments that name where output goes. *)
Definition output_keywords : list string :=
  [ "outdir"; "filename"; "fname"; "file"; "path"; "savefig" ].

Definition requests_output (e : event) : bool :=
  bool_decide (Exists (λ k, k ∈ output_keywords) (map fst (kwargs e))).

Definition writes_file (e : event) : bool :=
  match callee_name e with
  | Some m => bool_decide (m ∈ writers)
  | None => false
  end.

(** ** The repository *)

Record source_file := SourceFile {
  path : string;
  content : list cell
}.

Definition repository : list source_file :=
  [ SourceFile "notebooks/parameter_estimation_injection_tutorial.ipynb"
      Notebook.cells ].

Definition suffix (suf s : string) : bool :=
  let n := String.length s - String.length suf in
  String.eqb (String.substring n (String.length suf) s) suf
  && (String.length suf <=? String.length s)%nat.

Definition is_notebook (f : source_file) : bool := suffix ".ipynb" (path f).

(** A file of the repository provides the package [pkg] when it is the
    module [pkg.py] or lies in a directory [pkg]. *)
Definition provides (pkg : string) (f : source_file) : bool :=
  suffix ("/" ++ pkg ++ ".py") ("/" ++ path f)
  || contains ("/" ++ pkg ++ "/") ("/" ++ path f).

(** ** Seeding and data creation *)

(** Cells 0 to 10 end with [np.random.seed(1234)]; cells 11 to 18 create
    the data: the injection parameters, the waveform generator, the
    detector network, its simulated strain and the injected signal. *)
Definition seeding : list stmt := upto 11.

Definition data_creation : list stmt := between 11 19.

(** Data creation in a run that starts in the hidden state [w]: the
    namespace, the hidden state and the calls, with their results, that
    cells 11 to 18 leave behind. *)
Definition create_data {World : Type}
    (ext : value → list value → list (string * value) → World → nat * World)
    (w : World) : option (list (string * value) * World * list event) :=
  match run ext seeding w with
  | Some (ns, seeded, _) => exec_block ext data_creation ns seeded
  | None => None
  end.

(** The namespace the seeding cells leave: the imported names. *)
Definition seeded_namespace : list (string * value) :=
  match run fresh seeding 0 with
  | Some (ns, _, _) => ns
  | None => []
  end.

(** The hidden state of the Python process, in two parts: the state of
    numpy's global random generator, which [np.random.seed] sets, and
    whatever else the libraries keep, a generator of their own
    included. *)
Record process (G L : Type) := Process {
  numpy_random : G;
  library : L
}.

Arguments Process {G L} _ _.
Arguments numpy_random {G L} _.
Arguments library {G L} _.

(** The routines of the run, by name, that data creation calls. *)
Definition data_creation_calls : list (option string) :=
  [ Some "dict"; Some "dict"; Some "WaveformGenerator";
    Some "InterferometerList";
    Some "set_strain_data_from_power_spectral_densities";
    Some "inject_signal" ].

(** Two small libraries for running the data creation.  In both,
    [print] leaves the hidden state alone and [np.random.seed(s)] sets
    numpy's generator from [s].  In [numpy_drawing] every other call
    draws from numpy's generator; in [own_generator] every other call
    draws from a generator the library keeps for itself, which seeding
    numpy does not touch. *)
Definition seed_of (f : value) (vs : list value) : option Z :=
  match f, vs with
  | VRef p, [VInt s] => if bool_decide (p = np_random_seed) then Some s else None
  | _, _ => None
  end.

Definition draw (x : Z) : Z := ((1103515245 * x + 12345) mod 2 ^ 31)%Z.

Definition numpy_drawing (f : value) (vs : list value)
    (kws : list (string * value)) (w : process Z unit) : nat * process Z unit :=
  if is_ref ["builtins"; "print"] f then (0, w)
  else match seed_of f vs with
       | Some s => (0, Process (s mod 2 ^ 31)%Z (library w))
       | None =>
           (Z.to_nat (numpy_random w mod 1000),
            Process (draw (numpy_random w)) (library w))
       end.

Definition own_generator (f : value) (vs : list value)
    (kws : list (string * value)) (w : process Z Z) : nat * process Z Z :=
  if is_ref ["builtins"; "print"] f then (0, w)
  else match seed_of f vs with
       | Some s => (0, Process (s mod 2 ^ 31)%Z (library w))
       | None =>
           (Z.to_nat (library w mod 1000),
            Process (numpy_random w) (draw (library w)))
       end.

(** ** Quantiles and the credible interval *)

(** [np.quantile(a, q)] with numpy's default method, over rationals: the
    array is sorted, the fractional position [q * (n - 1)] is split into
    its floor and its remainder [gamma], and the result interpolates
    linearly between the two neighbouring order statistics.  numpy
    rejects [q] outside [0, 1]; an empty array has no quantile. *)
Fixpoint insort (x : Q) (l : list Q) : list Q :=
  match l with
  | [] => [x]
  | y :: l' => if Qle_bool x y then x :: l else y :: insort x l'
  end.

Fixpoint np_sort (l : list Q) : list Q :=
  match l with
  | [] => []
  | x :: l' => insort x (np_sort l')
  end.

Definition lerp (a b gamma : Q) : Q := (a + (b - a) * gamma)%Q.

Definition virtual_index (n : nat) (q : Q) : Q :=
  (q * inject_Z (Z.of_nat n - 1))%Q.

Definition order_statistic (s : list Q) (i : Z) : Q := nth (Z.to_nat i) s 0%Q.

Definition np_quantile (a : list Q) (q : Q) : option Q :=
  let s := np_sort a in
  let n := length s in
  if bool_decide (n = 0) then None
  else if Qle_bool 0 q && Qle_bool q 1 then
    let v := virtual_index n q in
    let previous := Qfloor v in
    let next := Z.min (previous + 1) (Z.of_nat n - 1) in
    Some (lerp (order_statistic s previous) (order_statistic s next)
            (v - inject_Z previous))
  else None.

(** Cell 39: the bounds of the 90% credible interval and the median, in
    the order the cell assigns them. *)
Record interval := Interval {
  lower_bound : Q;
  upper_bound : Q;
  median : Q
}.

Definition credible_interval (Mc : list Q) : option interval :=
  lower_bound ← np_quantile Mc (5 # 100);
  upper_bound ← np_quantile Mc (95 # 100);
  median ← np_quantile Mc (5 # 10);
  Some (Interval lower_bound upper_bound median).

(** ** Quantiles in float64 *)

(** [np.quantile(a, q)] as numpy computes it on a float64 array without
    NaN, default method: the same steps as [np_quantile], each carried
    out in binary64 with rounding, overflow to infinity included.
    [f64_lerp] is numpy's interpolation: [a + (b - a) * t], and for
    [t >= 0.5] [b - (b - a) * (1 - t)]. *)
Fixpoint f64_insort (x : float) (l : list float) : list float :=
  match l with
  | [] => [x]
  | y :: l' => if PrimFloat.leb x y then x :: l else y :: f64_insort x l'
  end.

Fixpoint f64_sort (l : list float) : list float :=
  match l with
  | [] => []
  | x :: l' => f64_insort x (f64_sort l')
  end.

Definition f64_of_nat (n : nat) : float :=
  PrimFloat.of_uint63 (Uint63.of_Z (Z.of_nat n)).

(** The floor of [v] as an index, for [0 <= v <= bound]. *)
Fixpoint f64_floor (bound : nat) (v : float) : nat :=
  match bound with
  | O => O
  | S k => if PrimFloat.leb (f64_of_nat bound) v then bound else f64_floor k v
  end.

Definition f64_lerp (a b t : float) : float :=
  let diff := PrimFloat.sub b a in
  if PrimFloat.leb 0.5%float t
  then PrimFloat.sub b (PrimFloat.mul diff (PrimFloat.sub 1%float t))
  else PrimFloat.add a (PrimFloat.mul diff t).

Definition f64_quantile (a : list float) (q : float) : option float :=
  let s := f64_sort a in
  match length s with
  | O => None
  | S last =>
      if PrimFloat.leb 0%float q && PrimFloat.leb q 1%float then
        let v := PrimFloat.mul q (f64_of_nat last) in
        let previous := f64_floor last v in
        let next := Nat.min (S previous) last in
        Some (f64_lerp (nth previous s 0%float) (nth next s 0%float)
                (PrimFloat.sub v (f64_of_nat previous)))
      else None
  end.

(** Cell 39 on a float64 array. *)
Record f64_interval := F64Interval {
  f64_lower_bound : float;
  f64_upper_bound : float;
  f64_median : float
}.

Definition f64_credible_interval (Mc : list float) : option f64_interval :=
  match f64_quantile Mc 0.05%float, f64_quantile Mc 0.95%float,
        f64_quantile Mc 0.5%float with
  | Some lower, Some upper, Some median =>
      Some (F64Interval lower upper median)
  | _, _, _ => None
  end.

(** ** The loop that fixes parameters *)

(** Cell 23 ends with [for key in keys: prior[key] =
    injection_parameters[key]]; [fix_parameters keys] is that loop for a
    list of keys. *)
Definition fix_parameters_body : list stmt :=
  [ Assign (Subscript (Name "prior") (Name "key"))
      (Subscript (Name "injection_parameters") (Name "key")) ].

Definition fix_parameters (keys : list string) : stmt :=
  For "key" (ListLit (map StrLit keys)) fix_parameters_body.

(** ** Keyword arguments of a call *)

Definition find_keyword (name : string) (kws : list (string * expr))
  : option expr :=
  snd <$> find (λ kw, String.eqb (fst kw) name) kws.

(** The keyword arguments of the call in [ss] that passes [name=...] as
    the string [name]: [Uniform(name='geocent_time', ...)]. *)
Definition has_name (name : string) (kws : list (string * expr)) : bool :=
  match find_keyword "name" kws with
  | Some (StrLit s) => String.eqb s name
  | _ => false
  end.

Definition keywords_named (name : string) (ss : list stmt)
  : list (string * expr) :=
  default [] (head (filter (λ kws, has_name name kws)
                      (map expr_keywords (all_exprs ss)))).

(** ** The injected masses and the mass priors *)

Definition number (v : value) : option Q :=
  match v with
  | VInt n => Some (inject_Z n)
  | VFloat x => Some x
  | _ => None
  end.

(** An injected parameter, read off cell 12. *)
Definition injected (key : string) : option Q :=
  match get_item (literal_items Notebook.injection_parameters_keywords) key with
  | Some v => number v
  | None => None
  end.

(** The bounds of the [Uniform] prior of cell 23 called [name]. *)
Definition literal_number (e : option expr) : option Q :=
  match e with
  | Some (IntLit n) => Some (inject_Z n)
  | Some (FloatLit x) => Some x
  | _ => None
  end.

Definition uniform_bounds (name : string) : option (Q * Q) :=
  let kws := keywords_named name Notebook.cell_prior in
  match literal_number (find_keyword "minimum" kws),
        literal_number (find_keyword "maximum" kws) with
  | Some lo, Some hi => Some (lo, hi)
  | _, _ => None
  end.

(** Cell 21 defines the chirp mass [(m1 m2)^(3/5) / (m1 + m2)^(1/5)] and
    the mass ratio [m2 / m1]; the fifth power of the chirp mass is
    rational in the masses. *)
Definition chirp_mass_pow5 (m1 m2 : Q) : Q := ((m1 * m2) ^ 3 / (m1 + m2))%Q.

Definition mass_ratio (m1 m2 : Q) : Q := (m2 / m1)%Q.

(** ** Ranks *)

(** How many samples lie strictly below, and how many at or below, a
    value. *)
Definition count_lt (v : Q) (l : list Q) : nat :=
  length (filter (λ y, negb (Qle_bool v y)) l).

Definition count_le (v : Q) (l : list Q) : nat :=
  length (filter (λ y, Qle_bool y v) l).

(** * Properties *)

Ltac by_evaluation := vm_compute; reflexivity.

Ltac decide_by_evaluation :=
  apply (bool_decide_unpack _); vm_compute; exact I.

(** ** The order of the workflow *)

(** C1.  A top-to-bottom run of the notebook completes without an unbound
    name, so nothing is used before the statement that defines it, and
    every object a call consumes was returned by an earlier call.  The
    workflow stages occur in this order, each of the first six exactly
    once: the two-detector network [InterferometerList(['H1',
    'L1'])], its strain data from power spectral densities, the signal
    injection, the prior ([PriorDict]), the likelihood
    ([GravitationalWaveTransient]), the sampler ([run_sampler] with
    [sampler='nestle']), and only then the plots of what the sampler
    returned.  The strain data and the injection are methods of the
    network object. *)
Theorem workflow_order :
  is_Some outcome ∧
  causal trace = true ∧
  workflow trace =
    [ Network; StrainData; Injection; Prior; Likelihood; Sampler;
      Visualisation; Visualisation; Visualisation; Visualisation;
      Visualisation ] ∧
  (∃ net, filter (λ e, calls InterferometerList e) trace = [net] ∧
     args net = [VList [VStr "H1"; VStr "L1"]] ∧
     Forall (λ e, receiver e = Some (result net))
       (filter (λ e, calls_method
                       "set_strain_data_from_power_spectral_densities" e
                     || calls_method "inject_signal" e) trace)) ∧
  (∃ e, filter (λ e, calls run_sampler e) trace = [e] ∧
     get_item (kwargs e) "sampler" = Some (VStr "nestle")).
Proof.
  split; [decide_by_evaluation |].
  split; [by_evaluation |].
  split; [by_evaluation |].
  split.
  - eexists. split; [by_evaluation |]. split; [reflexivity |].
    vm_compute. repeat constructor.
  - eexists. split; [by_evaluation |]. reflexivity.
Qed.

(** ** Delegation to the library *)

(** C2.  The notebook defines no function, class or lambda, and every
    call of the run is to a library symbol, a builtin or a method of an
    object a library returned.  There is one call of
    [bilby.gw.WaveformGenerator], with
    [frequency_domain_source_model=bilby.gw.source.lal_binary_black_hole];
    one of [bilby.gw.likelihood.GravitationalWaveTransient], with time and
    phase marginalization on and distance marginalization off; and one of
    [bilby.run_sampler], with [sampler='nestle']. *)
Theorem heavy_engineering_is_delegated :
  local_definitions notebook = [] ∧
  lambdas notebook = [] ∧
  Forall (λ e, library_owned (callee e) = true) trace ∧
  (∃ e, filter (λ e, calls WaveformGenerator e) trace = [e] ∧
     get_item (kwargs e) "frequency_domain_source_model"
     = Some (VRef lal_binary_black_hole)) ∧
  (∃ e, filter (λ e, calls GravitationalWaveTransient e) trace = [e] ∧
     get_item (kwargs e) "time_marginalization" = Some (VBool true) ∧
     get_item (kwargs e) "phase_marginalization" = Some (VBool true) ∧
     get_item (kwargs e) "distance_marginalization" = Some (VBool false)) ∧
  (∃ e, filter (λ e, calls run_sampler e) trace = [e] ∧
     get_item (kwargs e) "sampler" = Some (VStr "nestle")).
Proof.
  split; [by_evaluation |].
  split; [by_evaluation |].
  split.
  { apply Forall_forall. intros e He.
    assert (H : forallb (λ e, library_owned (callee e)) trace = true)
      by by_evaluation.
    rewrite forallb_forall in H. apply H. by apply list_elem_of_In. }
  split; [| split].
  - eexists. split; [by_evaluation | reflexivity].
  - eexists. split; [by_evaluation | repeat split].
  - eexists. split; [by_evaluation | reflexivity].
Qed.

(** No statement of the notebook is a [try], a [raise], an [if], a
    [while] or a [with].  The one keyword argument in the whole script
    whose name mentions errors is [catch_waveform_errors=True]; it sits
    in the [waveform_arguments] dictionary, which the run hands to the
    library's [WaveformGenerator].  What the library does with the flag
    is the library's. *)
Theorem failure_handling_is_delegated :
  Forall (λ k, k ∉ [KTry; KRaise; KIf; KWhile; KWith]) (kinds notebook) ∧
  filter (λ kw, contains "error" (fst kw)) (all_keywords notebook)
  = [("catch_waveform_errors", BoolLit true)] ∧
  (∃ e waveform_arguments,
     filter (λ e, calls WaveformGenerator e) trace = [e] ∧
     get_item (kwargs e) "waveform_arguments"
     = Some (VDict builtin_dict waveform_arguments) ∧
     get_item waveform_arguments "catch_waveform_errors" = Some (VBool true)).
Proof.
  split; [decide_by_evaluation |].
  split; [by_evaluation |].
  do 2 eexists. split; [by_evaluation |]. split; reflexivity.
Qed.



(** ** The injected signal *)

(** C5.  [injection_parameters] is built by one [dict] call with 15
    keyword arguments, all of them numeric literals, under distinct
    names; the run calls [ifos.inject_signal] once, and its [parameters]
    argument is exactly that dictionary of constants ([mass_1=36.],
    [mass_2=29.], ..., [geocent_time=1126259642.413]). *)
Theorem injection_is_a_literal_dictionary :
  let keywords := Notebook.injection_parameters_keywords in
  length keywords = 15 ∧
  NoDup (map fst keywords) ∧
  Forall (λ kw, literal (snd kw) = true) keywords ∧
  (∃ e, filter (λ e, calls_method "inject_signal" e) trace = [e] ∧
     get_item (kwargs e) "parameters"
     = Some (VDict builtin_dict (literal_items keywords))) ∧
  literal_items keywords =
    [ ("mass_1", VFloat 36); ("mass_2", VFloat 29);
      ("a_1", VFloat (4 # 10)); ("a_2", VFloat (3 # 10));
      ("tilt_1", VFloat (5 # 10)); ("tilt_2", VFloat 1);
      ("phi_12", VFloat (17 # 10)); ("phi_jl", VFloat (3 # 10));
      ("luminosity_distance", VFloat 2000); ("theta_jn", VFloat (4 # 10));
      ("psi", VFloat (2659 # 1000)); ("phase", VFloat (13 # 10));
      ("geocent_time", VFloat (1126259642413 # 1000));
      ("ra", VFloat (1375 # 1000)); ("dec", VFloat (-12108 # 10000)) ].
Proof.
  intros keywords. subst keywords.
  split; [reflexivity |].
  split; [decide_by_evaluation |].
  split; [repeat constructor |].
  split; [| reflexivity].
  eexists. split; by_evaluation.
Qed.

(** ** The repository *)

(** C6.  The repository's source is one file, a Jupyter notebook.  The
    notebook defines no function or class, so it offers no entry point
    beyond running its cells, and none of the packages it imports
    ([__future__], [numpy], [matplotlib], [bilby]) is provided by a file
    of the repository. *)
Theorem repository_is_one_notebook :
  (∃ f, repository = [f] ∧ is_notebook f = true ∧
     program (content f) = notebook) ∧
  local_definitions notebook = [] ∧
  imported_packages notebook = ["__future__"; "numpy"; "matplotlib"; "bilby"] ∧
  Forall (λ pkg, Forall (λ f, provides pkg f = false) repository)
    (imported_packages notebook).
Proof.
  split; [(eexists; repeat split) |].
  split; [by_evaluation |].
  split; [by_evaluation |].
  vm_compute. repeat constructor.
Qed.
(** ** Facts about execution *)

Section Execution.
Context {World : Type}.
Variable ext : value → list value → list (string * value) → World → nat * World.

Lemma bind_ret_l {A B} (a : A) (f : A → @M World B) w : (x ← mret a; f x) w = f a w.
Proof.
  unfold mbind, M_bind, bind, mret, M_ret, ret.
  by destruct (f a w) as [[[b w'] t]|].
Qed.

Lemma bind_ret_r {A} (m : @M World A) w : (x ← m; mret x) w = m w.
Proof.
  unfold mbind, M_bind, bind, mret, M_ret, ret.
  destruct (m w) as [[[a w'] t]|]; [| done]. by rewrite app_nil_r.
Qed.

Lemma bind_assoc {A B C} (m : @M World A) (f : A → @M World B) (g : B → @M World C) w :
  (y ← (x ← m; f x); g y) w = (x ← m; y ← f x; g y) w.
Proof.
  unfold mbind, M_bind, bind.
  destruct (m w) as [[[a w1] t1]|]; [| done].
  destruct (f a w1) as [[[b w2] t2]|]; [| done].
  destruct (g b w2) as [[[c w3] t3]|]; [| done].
  by rewrite app_assoc.
Qed.

Lemma bind_ext {A B} (m : @M World A) (f g : A → @M World B) w :
  (∀ a w', f a w' = g a w') → (x ← m; f x) w = (x ← m; g x) w.
Proof.
  intros Hfg. unfold mbind, M_bind, bind.
  destruct (m w) as [[[a w1] t1]|]; [| done]. by rewrite Hfg.
Qed.

Lemma exec_block_app ss1 ss2 ns w :
  exec_block ext (ss1 ++ ss2) ns w
  = (ns' ← exec_block ext ss1 ns; exec_block ext ss2 ns') w.
Proof.
  revert ns w. induction ss1 as [| s ss1 IH]; intros ns w; simpl.
  - by rewrite bind_ret_l.
  - rewrite bind_assoc. apply bind_ext. intros. apply IH.
Qed.

Lemma eval_list ns elts w :
  eval ext ns (ListLit elts) w = (vs ← evals ext ns elts; mret (VList vs)) w.
Proof. reflexivity. Qed.

Lemma exec_for x iter body ns w :
  exec_stmt ext (For x iter body) ns w
  = (it ← eval ext ns iter;
     match it with
     | VList vs | VTuple vs => for_loop ext x body vs ns
     | _ => raise
     end) w.
Proof. reflexivity. Qed.

Lemma bind_Some {A B} (m : @M World A) (f : A → @M World B) w a w1 :
  m w = Some (a, w1, []) → (x ← m; f x) w = f a w1.
Proof.
  intros Hm. unfold mbind, M_bind, bind. rewrite Hm.
  by destruct (f a w1) as [[[b w2] t2]|].
Qed.

Lemma eval_literal e v ns w :
  literal_value e = Some v → eval ext ns e w = Some (v, w, []).
Proof. destruct e; simpl; intros [= <-]; reflexivity. Qed.

Lemma evals_literals ns elts :
  forallb literal elts = true →
  ∀ w, ∃ vs, evals ext ns elts w = Some (vs, w, [])
             ∧ Forall2 (λ e v, literal_value e = Some v) elts vs.
Proof.
  induction elts as [| e elts IH]; simpl; intros Hlit w.
  - exists []. split; [reflexivity | constructor].
  - apply andb_prop in Hlit as [He Helts].
    apply bool_decide_eq_true in He as [v Hv].
    destruct (IH Helts w) as (vs & Hvs & HF).
    exists (v :: vs). split; [| by constructor].
    rewrite (bind_Some _ _ w v w) by by apply eval_literal.
    by rewrite (bind_Some _ _ w vs w).
Qed.

Lemma exec_assign_literal x e v ns w :
  literal_value e = Some v →
  exec_stmt ext (Assign (Name x) e) ns w = Some (set_item ns x v, w, []).
Proof.
  intros Hv. simpl.
  by rewrite (bind_Some _ _ w v w) by by apply eval_literal.
Qed.

(** A loop over literals runs its unrolling. *)
Lemma for_loop_unroll x body elts vs :
  Forall2 (λ e v, literal_value e = Some v) elts vs →
  ∀ ns w,
    for_loop ext x body vs ns w
    = exec_block ext (flat_map (λ e, Assign (Name x) e :: body) elts) ns w.
Proof.
  induction 1 as [| e v elts vs Hv _ IH]; intros ns w; [reflexivity |].
  cbn [flat_map app exec_block].
  rewrite (bind_Some _ _ w (set_item ns x v) w)
    by by apply exec_assign_literal.
  rewrite exec_block_app. cbn [for_loop].
  apply bind_ext. intros. apply IH.
Qed.

Lemma exec_unroll_stmt s ns w :
  exec_block ext (unroll_stmt s) ns w = exec_stmt ext s ns w.
Proof.
  assert (Hone : exec_block ext [s] ns w = exec_stmt ext s ns w)
    by apply bind_ret_r.
  destruct s as [| | | | | x iter body | | | | | | |]; try exact Hone.
  destruct iter as [| | | | | elts | | | | | |]; try exact Hone.
  unfold unroll_stmt.
  destruct (forallb literal elts) eqn:Hlit; [| exact Hone].
  destruct (evals_literals ns elts Hlit w) as (vs & Hvs & HF).
  assert (Hiter : eval ext ns (ListLit elts) w = Some (VList vs, w, [])).
  { rewrite eval_list. by rewrite (bind_Some _ _ w vs w). }
  rewrite exec_for, (bind_Some _ _ w (VList vs) w) by exact Hiter.
  symmetry. by apply for_loop_unroll.
Qed.

(** Unrolling preserves the run: the namespace, the hidden state and the
    calls made. *)
Lemma exec_unroll ss ns w :
  exec_block ext (unroll ss) ns w = exec_block ext ss ns w.
Proof.
  revert ns w. induction ss as [| s ss IH]; intros ns w; [reflexivity |].
  change (unroll (s :: ss)) with (unroll_stmt s ++ unroll ss).
  rewrite exec_block_app.
  cbn [exec_block].
  unfold mbind, M_bind, bind. rewrite exec_unroll_stmt.
  destruct (exec_stmt ext s ns w) as [[[ns1 w1] t1]|]; [| done].
  by rewrite (IH ns1 w1).
Qed.

End Execution.


(** ** Sequential execution *)

(** C7.  Every statement of the notebook is an import, a magic, an
    assignment, an expression statement or a [for]: no [while], [if],
    [try], [with], no function and no class, hence no data structure or
    protocol object of its own.  Its single [for] runs over a list of
    literals, so the script unrolls to a straight line of simple
    statements, and for every library and every hidden state the
    unrolled script makes the same run as the notebook.  It imports no
    package for threads, processes or asynchronous tasks and mentions
    none of their coordination objects. *)
Theorem execution_is_sequential :
  Forall (λ k, k ∈ [KImport; KMagic; KAssign; KExpr; KFor]) (kinds notebook) ∧
  length (filter (λ k, k = KFor) (kinds notebook)) = 1 ∧
  straight_line (unroll notebook) = true ∧
  (∀ (World : Type)
     (ext : value → list value → list (string * value) → World → nat * World)
     (w : World),
     run ext (unroll notebook) w = run ext notebook w) ∧
  local_definitions notebook = [] ∧
  Forall (λ pkg, pkg ∉ concurrency_packages) (imported_packages notebook) ∧
  Forall (λ x, x ∉ coordination_names) (identifiers notebook).
Proof.
  split; [decide_by_evaluation |].
  split; [by_evaluation |].
  split; [by_evaluation |].
  split; [intros World ext w; apply exec_unroll |].
  split; [by_evaluation |].
  split; decide_by_evaluation.
Qed.

(** ** Reproducible data creation *)

Section Reproducibility.
Context {World : Type}.
Variable ext : value → list value → list (string * value) → World → nat * World.

(** The seeding cells make two external calls, [print] and
    [np.random.seed(1234)]; the hidden state they leave is the one the
    seeding call returns. *)
Lemma seeding_run w :
  ∃ t, run ext seeding w
       = Some (seeded_namespace,
               snd (ext (VRef np_random_seed) [VInt 1234] []
                      (snd (ext (VRef ["builtins"; "print"])
                              [VRef ["bilby"; "__version__"]] [] w))),
               t).
Proof.
  vm_compute.
  destruct (ext _ _ _ w) as [h0 w0]. destruct (ext _ _ _ w0) as [h1 w1].
  eexists. reflexivity.
Qed.

(** Data creation raises no exception and calls these six routines,
    whatever the library returns. *)
Lemma data_creation_runs s :
  match exec_block ext data_creation seeded_namespace s with
  | Some (_, _, t) => bool_decide (map callee_name t = data_creation_calls)
  | None => false
  end = true.
Proof.
  vm_compute.
  repeat match goal with
         | |- context [ext ?f ?vs ?kws ?w] => destruct (ext f vs kws w)
         end.
  reflexivity.
Qed.

End Reproducibility.




(** ** The prior *)

(** C9.  Once the prior cell has run, [prior] is a [PriorDict] of 15
    entries.  For each of the 12 keys of the loop, [prior[key]] is the
    number [injection_parameters[key]].  The other three entries,
    [chirp_mass], [mass_ratio] and [geocent_time], are the objects the
    three [Uniform] calls returned: the prior leaves three dimensions to
    sample.  The
    [geocent_time] prior is [Uniform] from the injected time minus 1 to
    the injected time plus 1, which contains the injected time. *)
Theorem prior_fixes_all_but_three :
  ∃ items injected,
    lookup_after 24 "prior" = Some (VDict PriorDict items) ∧
    lookup_after 24 "injection_parameters"
    = Some (VDict builtin_dict injected) ∧
    length Notebook.fixed_keys = 12 ∧
    (∀ key, key ∈ Notebook.fixed_keys →
       ∃ x, get_item injected key = Some (VFloat x)
            ∧ get_item items key = Some (VFloat x)) ∧
    map fst items
    = ["chirp_mass"; "mass_ratio"; "geocent_time"] ++ Notebook.fixed_keys ∧
    map fst (sampled items) = ["chirp_mass"; "mass_ratio"; "geocent_time"] ∧
    map snd (sampled items)
    = map result (filter (λ e, calls Uniform e) (trace_after 24)) ∧
    (∃ e lo hi t0,
       filter (λ e, calls Uniform e && named "geocent_time" e) (trace_after 24)
       = [e] ∧
       get_item items "geocent_time" = Some (result e) ∧
       get_item (kwargs e) "minimum" = Some (VFloat lo) ∧
       get_item (kwargs e) "maximum" = Some (VFloat hi) ∧
       get_item injected "geocent_time" = Some (VFloat t0) ∧
       (lo == t0 - 1 ∧ hi == t0 + 1 ∧ lo <= t0 ∧ t0 <= hi)%Q).
Proof.
  do 2 eexists.
  split; [by_evaluation |].
  split; [by_evaluation |].
  split; [reflexivity |].
  split.
  { apply Forall_forall.
    repeat (constructor; [eexists; split; reflexivity |]). constructor. }
  split; [reflexivity |].
  split; [reflexivity |].
  split; [by_evaluation |].
  do 4 eexists.
  split; [by_evaluation |].
  do 4 (split; [reflexivity |]).
  repeat split; try by_evaluation; apply Qle_bool_iff; by_evaluation.
Qed.

(** ** Quantiles *)

Section Quantiles.
Local Open Scope Q_scope.

Lemma insort_length x l : length (insort x l) = S (length l).
Proof.
  induction l as [| y l IH]; simpl; [reflexivity |].
  destruct (Qle_bool x y); simpl; congruence.
Qed.

Lemma np_sort_length l : length (np_sort l) = length l.
Proof.
  induction l as [| x l IH]; simpl; [reflexivity |].
  rewrite insort_length. congruence.
Qed.

Lemma insort_Forall (P : Q → Prop) x l :
  P x → Forall P l → Forall P (insort x l).
Proof.
  intros Hx. induction 1 as [| y l Hy Hl IH]; simpl.
  - by constructor.
  - destruct (Qle_bool x y); repeat constructor; assumption.
Qed.

Lemma insort_sorted x l :
  StronglySorted Qle l → StronglySorted Qle (insort x l).
Proof.
  induction 1 as [| y l Hl IH Hy]; simpl.
  - repeat constructor.
  - destruct (Qle_bool x y) eqn:Hxy.
    + apply Qle_bool_iff in Hxy. constructor; [by constructor |].
      constructor; [assumption |].
      eapply Forall_impl; [exact Hy |]. intros z Hz. by apply Qle_trans with y.
    + assert (y <= x).
      { apply Qlt_le_weak, Qnot_le_lt. intros Hle.
        apply Qle_bool_iff in Hle. congruence. }
      constructor; [assumption |]. by apply insort_Forall.
Qed.

Lemma np_sort_sorted l : StronglySorted Qle (np_sort l).
Proof.
  induction l as [| x l IH]; simpl; [constructor | by apply insort_sorted].
Qed.

(** In a sorted array, order statistics grow with their rank. *)
Lemma sorted_nth l :
  StronglySorted Qle l →
  ∀ i j, (i ≤ j)%nat → (j < length l)%nat → nth i l 0 <= nth j l 0.
Proof.
  induction 1 as [| y l Hl IH Hy]; intros i j Hij Hj; simpl in Hj; [lia |].
  destruct i as [| i], j as [| j]; simpl; try lia.
  - apply Qle_refl.
  - rewrite Forall_forall in Hy. apply Hy, list_elem_of_In, nth_In. lia.
  - apply IH; lia.
Qed.

Lemma order_statistic_mono s i j :
  StronglySorted Qle s →
  (0 ≤ i)%Z → (i ≤ j)%Z → (j < Z.of_nat (length s))%Z →
  order_statistic s i <= order_statistic s j.
Proof.
  intros Hs Hi Hij Hj. unfold order_statistic. apply sorted_nth; [assumption | lia ..].
Qed.

(** Interpolation stays between its end points and grows with the
    weight. *)
Lemma lerp_bounds a b gamma :
  a <= b → 0 <= gamma → gamma <= 1 → a <= lerp a b gamma ∧ lerp a b gamma <= b.
Proof. unfold lerp. intros. split; nra. Qed.

Lemma lerp_mono a b gamma1 gamma2 :
  a <= b → gamma1 <= gamma2 → lerp a b gamma1 <= lerp a b gamma2.
Proof. unfold lerp. intros. nra. Qed.

Lemma virtual_index_range n q :
  (0 < n)%nat → 0 <= q → q <= 1 →
  0 <= virtual_index n q ∧ virtual_index n q <= inject_Z (Z.of_nat n - 1).
Proof.
  intros Hn Hq0 Hq1. unfold virtual_index.
  assert (0 <= inject_Z (Z.of_nat n - 1)).
  { change 0 with (inject_Z 0). rewrite <- Zle_Qle. lia. }
  split; nra.
Qed.

Lemma quantile_defined a q :
  a ≠ [] → 0 <= q → q <= 1 → is_Some (np_quantile a q).
Proof.
  intros Ha Hq0 Hq1. unfold np_quantile.
  rewrite np_sort_length. rewrite bool_decide_eq_false_2.
  2:{ destruct a; [done | simpl; lia]. }
  apply Qle_bool_iff in Hq0, Hq1. rewrite Hq0, Hq1. simpl. eauto.
Qed.

(** [np.quantile(a, q)] grows with [q]. *)
Lemma quantile_mono a q1 q2 x1 x2 :
  np_quantile a q1 = Some x1 → np_quantile a q2 = Some x2 →
  q1 <= q2 → x1 <= x2.
Proof.
  unfold np_quantile. cbv zeta. intros H1 H2 Hq.
  pose proof (np_sort_sorted a) as Hs.
  set (s := np_sort a) in *. set (n := length s) in *.
  destruct (bool_decide_reflect (n = 0%nat)) as [| Hn]; [done |].
  destruct (Qle_bool 0 q1 && Qle_bool q1 1) eqn:Hr1; [| done].
  destruct (Qle_bool 0 q2 && Qle_bool q2 1) eqn:Hr2; [| done].
  apply andb_prop in Hr1 as [Hq1l Hq1u]. apply andb_prop in Hr2 as [Hq2l Hq2u].
  apply Qle_bool_iff in Hq1l, Hq1u, Hq2l, Hq2u.
  apply (inj Some) in H1, H2. subst x1 x2.
  destruct (virtual_index_range n q1) as [Hv1l Hv1u]; [lia | assumption .. |].
  destruct (virtual_index_range n q2) as [Hv2l Hv2u]; [lia | assumption .. |].
  assert (Hv : virtual_index n q1 <= virtual_index n q2).
  { unfold virtual_index.
    assert (0 <= inject_Z (Z.of_nat n - 1)).
    { change 0 with (inject_Z 0). rewrite <- Zle_Qle. lia. }
    nra. }
  set (v1 := virtual_index n q1) in *. set (v2 := virtual_index n q2) in *.
  pose proof (Qfloor_le v1) as Hf1. pose proof (Qlt_floor v1) as Hc1.
  pose proof (Qfloor_le v2) as Hf2. pose proof (Qlt_floor v2) as Hc2.
  pose proof (Qfloor_resp_le _ _ Hv) as Hp.
  pose proof (Qfloor_resp_le _ _ Hv1l) as Hp0. change (Qfloor 0) with 0%Z in Hp0.
  pose proof (Qfloor_resp_le _ _ Hv2u) as Hpn. rewrite Qfloor_Z in Hpn.
  set (p1 := Qfloor v1) in *. set (p2 := Qfloor v2) in *.
  rewrite inject_Z_plus in Hc1, Hc2. change (inject_Z 1) with 1 in Hc1, Hc2.
  clearbody p1 p2 v1 v2.
  assert (Hg1 : 0 <= v1 - inject_Z p1 ∧ v1 - inject_Z p1 <= 1) by (split; lra).
  assert (Hg2 : 0 <= v2 - inject_Z p2 ∧ v2 - inject_Z p2 <= 1) by (split; lra).
  assert (Hab1 : order_statistic s p1
                 <= order_statistic s (Z.min (p1 + 1) (Z.of_nat n - 1)))
    by (apply order_statistic_mono; [assumption | fold n; lia ..]).
  assert (Hab2 : order_statistic s p2
                 <= order_statistic s (Z.min (p2 + 1) (Z.of_nat n - 1)))
    by (apply order_statistic_mono; [assumption | fold n; lia ..]).
  destruct (Z.eq_dec p1 p2) as [Heq | Hne].
  - rewrite <- Heq. apply lerp_mono; [assumption |]. rewrite <- Heq in Hf2. lra.
  - destruct (lerp_bounds _ _ _ Hab1 (proj1 Hg1) (proj2 Hg1)) as [_ Hu].
    destruct (lerp_bounds _ _ _ Hab2 (proj1 Hg2) (proj2 Hg2)) as [Hl _].
    eapply Qle_trans; [exact Hu |]. eapply Qle_trans; [| exact Hl].
    apply order_statistic_mono; [assumption | fold n; lia ..].
Qed.

End Quantiles.




(** * Further properties *)

(** ** Dictionaries *)

Lemma get_set_item_eq items key v : get_item (set_item items key v) key = Some v.
Proof.
  induction items as [| [k v0] items IH]; simpl.
  - by rewrite String.eqb_refl.
  - destruct (String.eqb k key) eqn:Hk; simpl; rewrite Hk; [reflexivity | exact IH].
Qed.

Lemma get_set_item_ne items key key' v :
  key ≠ key' → get_item (set_item items key v) key' = get_item items key'.
Proof.
  intros Hne. induction items as [| [k v0] items IH]; simpl.
  - by apply String.eqb_neq in Hne as ->.
  - destruct (String.eqb k key) eqn:Hk; simpl.
    + apply String.eqb_eq in Hk as ->. by apply String.eqb_neq in Hne as ->.
    + by rewrite IH.
Qed.

Section FixParameters.
Context {World : Type}.
Variable ext : value → list value → list (string * value) → World → nat * World.

Lemma evals_strings ns keys w :
  evals ext ns (map StrLit keys) w = Some (map VStr keys, w, []).
Proof.
  induction keys as [| k keys IH]; [reflexivity |].
  cbn [map evals]. rewrite (bind_Some _ _ w (VStr k) w) by reflexivity.
  by rewrite (bind_Some _ _ w (map VStr keys) w).
Qed.

Lemma lookup_name_bound ns x v : get_item ns x = Some v → lookup_name ns x = Some v.
Proof. unfold lookup_name. by intros ->. Qed.

(** One iteration: [prior[key] = injection_parameters[key]]. *)
Lemma fix_parameters_step ns w k cls P cls' S :
  get_item ns "prior" = Some (VDict cls P) →
  get_item ns "injection_parameters" = Some (VDict cls' S) →
  get_item ns "key" = Some (VStr k) →
  exec_block ext fix_parameters_body ns w
  = match get_item S k with
    | Some v => Some (set_item ns "prior" (VDict cls (set_item P k v)), w, [])
    | None => None
    end.
Proof.
  intros Hp Hs Hk. unfold fix_parameters_body.
  cbn [exec_block exec_stmt eval].
  unfold mbind, M_bind, bind, lift, mret, M_ret, ret, raise.
  rewrite (lookup_name_bound _ _ _ Hs), (lookup_name_bound _ _ _ Hk).
  cbn [getitem]. destruct (get_item S k) as [v |]; [| reflexivity].
  unfold assign. cbn [eval].
  unfold mbind, M_bind, bind, lift, mret, M_ret, ret, raise.
  rewrite Hp, (lookup_name_bound _ _ _ Hk). reflexivity.
Qed.

Lemma fix_parameters_loop keys :
  ∀ ns w cls P cls' S,
    get_item ns "prior" = Some (VDict cls P) →
    get_item ns "injection_parameters" = Some (VDict cls' S) →
    Forall (λ k, is_Some (get_item S k)) keys →
    ∃ ns' P',
      for_loop ext "key" fix_parameters_body (map VStr keys) ns w
      = Some (ns', w, []) ∧
      get_item ns' "prior" = Some (VDict cls P') ∧
      (∀ x, x ≠ "key" → x ≠ "prior" → get_item ns' x = get_item ns x) ∧
      (∀ k, k ∈ keys → get_item P' k = get_item S k) ∧
      (∀ k, k ∉ keys → get_item P' k = get_item P k).
Proof.
  induction keys as [| k keys IH]; intros ns w cls P cls' S Hp Hs Hkeys.
  - exists ns, P. split; [reflexivity |]. split; [assumption |].
    split; [reflexivity |]. split; [| reflexivity].
    intros k Hk. by apply elem_of_nil in Hk.
  - apply Forall_cons in Hkeys as [[v Hv] Hkeys].
    set (ns1 := set_item ns "key" (VStr k)).
    set (ns2 := set_item ns1 "prior" (VDict cls (set_item P k v))).
    assert (Hstep : exec_block ext fix_parameters_body ns1 w = Some (ns2, w, [])).
    { rewrite (fix_parameters_step ns1 w k cls P cls' S), Hv; [reflexivity | ..];
        unfold ns1; by rewrite ?get_set_item_eq, ?get_set_item_ne. }
    destruct (IH ns2 w cls (set_item P k v) cls' S) as (ns' & P' & Hrun & Hp' & Hns & Hin & Hout);
      [unfold ns2, ns1; by rewrite ?get_set_item_eq, ?get_set_item_ne .. | assumption |].
    exists ns', P'. split; [| split; [assumption | split; [| split]]].
    + cbn [map for_loop]. fold ns1.
      by rewrite (bind_Some _ _ w ns2 w).
    + intros x Hx1 Hx2. rewrite Hns by assumption.
      unfold ns2, ns1. by rewrite !get_set_item_ne.
    + intros k' Hk'. destruct (decide (k' ∈ keys)) as [Hmem | Hnot]; [by apply Hin |].
      apply elem_of_cons in Hk' as [-> | Hk']; [| done].
      by rewrite Hout, get_set_item_eq.
    + intros k' Hk'. apply not_elem_of_cons in Hk' as [Hne Hk'].
      rewrite Hout by assumption. by apply get_set_item_ne.
Qed.

Lemma fix_parameters_eval keys ns w :
  eval ext ns (ListLit (map StrLit keys)) w = Some (VList (map VStr keys), w, []).
Proof.
  rewrite eval_list. by rewrite (bind_Some _ _ w (map VStr keys) w) by apply evals_strings.
Qed.

Lemma fix_parameters_missing keys :
  ∀ ns w cls P cls' S,
    get_item ns "prior" = Some (VDict cls P) →
    get_item ns "injection_parameters" = Some (VDict cls' S) →
    Exists (λ k, get_item S k = None) keys →
    for_loop ext "key" fix_parameters_body (map VStr keys) ns w = None.
Proof.
  induction keys as [| k keys IH]; intros ns w cls P cls' S Hp Hs Hkeys.
  - by apply Exists_nil in Hkeys.
  - set (ns1 := set_item ns "key" (VStr k)).
    assert (Hstep := fix_parameters_step ns1 w k cls P cls' S).
    cbn [map for_loop]. fold ns1.
    destruct (get_item S k) as [v |] eqn:Hv.
    + apply Exists_cons in Hkeys as [Hk | Hkeys]; [congruence |].
      rewrite (bind_Some _ _ w (set_item ns1 "prior" (VDict cls (set_item P k v))) w).
      * apply (IH _ w cls (set_item P k v) cls' S); [| | assumption];
          unfold ns1; by rewrite ?get_set_item_eq, ?get_set_item_ne.
      * apply Hstep; unfold ns1; by rewrite ?get_set_item_eq, ?get_set_item_ne.
    + unfold mbind, M_bind, bind. rewrite Hstep; [reflexivity | ..];
        unfold ns1; by rewrite ?get_set_item_eq, ?get_set_item_ne.
Qed.

End FixParameters.

(** X1.  The loop that closes cell 23, run in any namespace where
    [prior] and [injection_parameters] are dictionaries and every key of
    the loop is present in [injection_parameters]: it completes without
    calling the library, copies [injection_parameters[key]] into
    [prior[key]] for each key of the loop, leaves every other entry of
    [prior] as it was, and leaves [injection_parameters] with the items
    it had. *)
Theorem fix_parameters_copies {World : Type}
    (ext : value → list value → list (string * value) → World → nat * World)
    (keys : list string) (ns : list (string * value)) (w : World)
    (cls cls' : list string) (P S : list (string * value)) :
  get_item ns "prior" = Some (VDict cls P) →
  get_item ns "injection_parameters" = Some (VDict cls' S) →
  Forall (λ k, is_Some (get_item S k)) keys →
  last Notebook.cell_prior = Some (fix_parameters Notebook.fixed_keys) ∧
  ∃ ns' P',
    exec_stmt ext (fix_parameters keys) ns w = Some (ns', w, []) ∧
    get_item ns' "prior" = Some (VDict cls P') ∧
    get_item ns' "injection_parameters" = Some (VDict cls' S) ∧
    (∀ k, k ∈ keys → get_item P' k = get_item S k) ∧
    (∀ k, k ∉ keys → get_item P' k = get_item P k).
Proof.
  intros Hp Hs Hkeys. split; [reflexivity |].
  destruct (fix_parameters_loop ext keys ns w cls P cls' S Hp Hs Hkeys)
    as (ns' & P' & Hrun & Hprior & Hframe & Hin & Hout).
  exists ns', P'. split; [| split; [exact Hprior | split; [| by split]]].
  - unfold fix_parameters. rewrite exec_for.
    by rewrite (bind_Some _ _ w (VList (map VStr keys)) w)
      by apply fix_parameters_eval.
  - by rewrite Hframe.
Qed.



Lemma fix_parameters_copies_witness :
  let ns := [ ("prior", VDict PriorDict [("chirp_mass", VHandle 0)]);
              ("injection_parameters",
               VDict builtin_dict [("psi", VFloat 2); ("ra", VFloat 1)]) ] in
  Forall (λ k, is_Some (get_item [("psi", VFloat 2); ("ra", VFloat 1)] k))
    ["ra"; "psi"] ∧
  ∃ ns' P',
    exec_stmt fresh (fix_parameters ["ra"; "psi"]) ns 0 = Some (ns', 0, []) ∧
    get_item ns' "prior" = Some (VDict PriorDict P') ∧
    get_item ns' "injection_parameters"
    = Some (VDict builtin_dict [("psi", VFloat 2); ("ra", VFloat 1)]) ∧
    (∀ k, k ∈ ["ra"; "psi"] →
       get_item P' k = get_item [("psi", VFloat 2); ("ra", VFloat 1)] k) ∧
    (∀ k, k ∉ ["ra"; "psi"] →
       get_item P' k = get_item [("chirp_mass", VHandle 0)] k).
Proof.
  intros ns. split; [repeat constructor; vm_compute; eauto |].
  apply (fix_parameters_copies fresh ["ra"; "psi"] ns 0
           PriorDict builtin_dict [("chirp_mass", VHandle 0)]
           [("psi", VFloat 2); ("ra", VFloat 1)]);
    [reflexivity | reflexivity | repeat constructor; vm_compute; eauto].
Defined.


(** ** The injected masses against the mass priors *)

(** X6.  By the formulas of cell 21, the injected masses [mass_1=36.]
    and [mass_2=29.] have a chirp mass below the lower bound [30.0] of
    the [chirp_mass] prior of cell 23 (its fifth power is below
    [30^5]), so the prior excludes the injected chirp mass; the injected
    mass ratio [29/36] lies inside the [mass_ratio] prior. *)
Theorem injected_chirp_mass_below_prior :
  ∃ m1 m2 lo hi qlo qhi,
    injected "mass_1" = Some m1 ∧ injected "mass_2" = Some m2 ∧
    uniform_bounds "chirp_mass" = Some (lo, hi) ∧
    uniform_bounds "mass_ratio" = Some (qlo, qhi) ∧
    (0 < m2 ∧ m2 <= m1 ∧ 0 < lo ∧
     chirp_mass_pow5 m1 m2 < lo ^ 5 ∧
     qlo <= mass_ratio m1 m2 ∧ mass_ratio m1 m2 <= qhi)%Q.
Proof.
  do 6 eexists. do 4 (split; [by_evaluation |]).
  repeat split; try reflexivity; apply Qle_bool_iff; by_evaluation.
Qed.

(** ** The order of the samples does not matter *)

Section QuantilePermutation.
Local Open Scope Q_scope.

Lemma insort_Permutation x l : insort x l ≡ₚ x :: l.
Proof.
  induction l as [| y l IH]; simpl; [reflexivity |].
  destruct (Qle_bool x y); [reflexivity |].
  rewrite IH. apply Permutation_swap.
Qed.

Lemma np_sort_Permutation l : np_sort l ≡ₚ l.
Proof.
  induction l as [| x l IH]; simpl; [reflexivity |].
  by rewrite insort_Permutation, IH.
Qed.

Lemma count_lt_Permutation v l l' : l ≡ₚ l' → count_lt v l = count_lt v l'.
Proof. intros H. unfold count_lt. by rewrite H. Qed.

Lemma count_le_Permutation v l l' : l ≡ₚ l' → count_le v l = count_le v l'.
Proof. intros H. unfold count_le. by rewrite H. Qed.

Lemma count_lt_cons v y l :
  count_lt v (y :: l) = ((if Qle_bool v y then 0 else 1) + count_lt v l)%nat.
Proof.
  unfold count_lt. rewrite filter_cons.
  destruct (Qle_bool v y); destruct (decide _) as [H | H]; simpl in *;
    try reflexivity; by exfalso.
Qed.

Lemma count_le_cons v y l :
  count_le v (y :: l) = ((if Qle_bool y v then 1 else 0) + count_le v l)%nat.
Proof.
  unfold count_le. rewrite filter_cons.
  destruct (Qle_bool y v); destruct (decide _) as [H | H]; simpl in *;
    try reflexivity; by exfalso.
Qed.

Lemma count_le_lt v v' l : v < v' → (count_le v l ≤ count_lt v' l)%nat.
Proof.
  intros Hv. induction l as [| y l IH]; [reflexivity |].
  rewrite count_le_cons, count_lt_cons.
  destruct (Qle_bool y v) eqn:Hy; [| lia].
  destruct (Qle_bool v' y) eqn:Hy'; [| lia].
  apply Qle_bool_iff in Hy, Hy'. lra.
Qed.

Lemma count_lt_above v l : Forall (Qle v) l → count_lt v l = 0%nat.
Proof.
  induction 1 as [| y l Hy Hl IH]; [reflexivity |].
  rewrite count_lt_cons. apply Qle_bool_iff in Hy. by rewrite Hy.
Qed.

(** In a sorted array, fewer than [i + 1] samples lie strictly below the
    sample of rank [i], and more than [i] lie at or below it. *)
Lemma rank_sorted s :
  StronglySorted Qle s →
  ∀ i, (i < length s)%nat →
       (count_lt (nth i s 0%Q) s ≤ i)%nat ∧ (i < count_le (nth i s 0%Q) s)%nat.
Proof.
  induction 1 as [| y l Hl IH Hy]; intros i Hi; simpl in Hi; [lia |].
  rewrite count_lt_cons, count_le_cons.
  destruct i as [| i]; cbn [nth].
  - rewrite (proj2 (Qle_bool_iff y y)) by apply Qle_refl.
    rewrite count_lt_above by assumption. lia.
  - destruct (IH i) as [Hlt Hle]; [lia |].
    assert (Hyv : y <= nth i l 0).
    { rewrite Forall_forall in Hy. apply Hy, list_elem_of_In, nth_In. lia. }
    rewrite (proj2 (Qle_bool_iff _ _) Hyv).
    destruct (Qle_bool (nth i l 0) y); lia.
Qed.

(** Two sorted arrays with the same samples agree rank by rank. *)
Lemma sorted_Permutation_nth s s' i :
  StronglySorted Qle s → StronglySorted Qle s' → s ≡ₚ s' →
  (i < length s)%nat → nth i s 0 == nth i s' 0.
Proof.
  intros Hs Hs' Hperm Hi.
  assert (Hi' : (i < length s')%nat) by by rewrite <- Hperm.
  destruct (rank_sorted s Hs i Hi) as [Hlt Hle].
  destruct (rank_sorted s' Hs' i Hi') as [Hlt' Hle'].
  set (v := nth i s 0) in *. set (v' := nth i s' 0) in *.
  apply Qle_antisym; apply Qnot_lt_le; intros Hv.
  - pose proof (count_le_lt v' v s Hv).
    rewrite (count_le_Permutation v' s s') in * by assumption. lia.
  - pose proof (count_le_lt v v' s' Hv).
    rewrite (count_le_Permutation v s s') in * by assumption. lia.
Qed.

Lemma lerp_Qeq a a' b b' gamma :
  a == a' → b == b' → lerp a b gamma == lerp a' b' gamma.
Proof. unfold lerp. intros -> ->. reflexivity. Qed.

Lemma quantile_Permutation a a' q x :
  a ≡ₚ a' → np_quantile a q = Some x →
  ∃ x', np_quantile a' q = Some x' ∧ x == x'.
Proof.
  unfold np_quantile. cbv zeta. intros Hperm Hx.
  assert (Hsort : np_sort a ≡ₚ np_sort a')
    by by rewrite !np_sort_Permutation.
  pose proof (np_sort_sorted a) as Hs. pose proof (np_sort_sorted a') as Hs'.
  rewrite <- (Permutation_length Hsort).
  set (s := np_sort a) in *. set (s' := np_sort a') in *. set (n := length s) in *.
  destruct (bool_decide_reflect (n = 0%nat)) as [| Hn]; [done |].
  destruct (Qle_bool 0 q && Qle_bool q 1) eqn:Hr; [| done].
  apply andb_prop in Hr as [Hq0 Hq1]. apply Qle_bool_iff in Hq0, Hq1.
  apply (inj Some) in Hx. subst x. eexists. split; [reflexivity |].
  destruct (virtual_index_range n q) as [Hv0 Hvn]; [lia | assumption .. |].
  pose proof (Qfloor_resp_le _ _ Hv0) as Hp0. change (Qfloor 0) with 0%Z in Hp0.
  pose proof (Qfloor_resp_le _ _ Hvn) as Hpn. rewrite Qfloor_Z in Hpn.
  set (p := Qfloor (virtual_index n q)) in *.
  apply lerp_Qeq; unfold order_statistic;
    apply sorted_Permutation_nth; try assumption; fold n; lia.
Qed.

End QuantilePermutation.

(** X7.  The interval of cell 39 depends on the samples, not on their
    order: two arrays that are permutations of each other give the same
    lower bound, upper bound and median (as rational numbers). *)
Theorem credible_interval_ignores_order (Mc Mc' : list Q) (ci : interval) :
  Mc ≡ₚ Mc' →
  credible_interval Mc = Some ci →
  ∃ ci', credible_interval Mc' = Some ci'
         ∧ (lower_bound ci == lower_bound ci')%Q
         ∧ (upper_bound ci == upper_bound ci')%Q
         ∧ (median ci == median ci')%Q.
Proof.
  unfold credible_interval. intros Hperm Hci.
  destruct (np_quantile Mc (5 # 100)) as [l |] eqn:Hl; [| done].
  destruct (np_quantile Mc (95 # 100)) as [u |] eqn:Hu; [| done].
  destruct (np_quantile Mc (5 # 10)) as [m |] eqn:Hm; [| done].
  apply (inj Some) in Hci. subst ci.
  destruct (quantile_Permutation _ _ _ _ Hperm Hl) as (l' & -> & Hl').
  destruct (quantile_Permutation _ _ _ _ Hperm Hu) as (u' & -> & Hu').
  destruct (quantile_Permutation _ _ _ _ Hperm Hm) as (m' & -> & Hm').
  eexists. split; [reflexivity |]. cbn. auto.
Qed.

Lemma credible_interval_ignores_order_witness :
  [31; 30; 32 # 1]%Q ≡ₚ [30; 32 # 1; 31]%Q ∧
  ∃ ci ci',
    credible_interval [31; 30; 32 # 1]%Q = Some ci ∧
    credible_interval [30; 32 # 1; 31]%Q = Some ci' ∧
    (lower_bound ci == lower_bound ci')%Q ∧
    (upper_bound ci == upper_bound ci')%Q ∧
    (median ci == median ci')%Q.
Proof.
  assert (H : [31; 30; 32 # 1]%Q ≡ₚ [30; 32 # 1; 31]%Q).
  { etransitivity; [apply Permutation_swap |].
    apply Permutation_skip, Permutation_swap. }
  split; [exact H |].
  eexists.
  destruct (credible_interval_ignores_order [31; 30; 32 # 1]%Q
              [30; 32 # 1; 31]%Q _ H ltac:(vm_compute; reflexivity))
    as (ci' & Hci' & Hrest).
  exists ci'. split; [vm_compute; reflexivity |]. split; [exact Hci' | exact Hrest].
Defined.
